(** * elasticlogrus: a logrus hook shipping entries to Elasticsearch

    Shallow embedding of [hook.go] and [options.go].  The hook object, the
    field maps of the entries, the cancellation context, the bulk
    processors and the remote index live in one explicit [World]; every
    method of the hook is a state-passing function over it. *)

From Stdlib Require Import ZArith NArith String Ascii List Lia.
From stdpp Require Import base gmap strings list.
Import ListNotations.
Local Open Scope string_scope.

(** ** Values stored in a [logrus.Fields] map ([interface{}]) *)

(** A field map is a Go reference type: entries and documents hold the
    address of the map, the map itself lives in the heap. *)
Definition loc := positive.

Inductive Value : Type :=
| VNil                      (* the nil interface *)
| VBool (b : bool)
| VInt (z : Z)
| VStr (s : string)
| VErr (msg : string)       (* a value whose dynamic type implements [error];
                               [msg] is what its [Error()] returns *)
| VMap (l : loc).           (* a map, by reference *)

Abbreviation Fields := (gmap string Value).
Abbreviation Heap := (gmap loc Fields).

(** [Message] is [map[string]interface{}]: the document sent to the index. *)
Abbreviation Message := (gmap string Value).

(** The Go [error] interface, identified by its message. *)
Inductive Error : Type := mkError (msg : string).

(** ** logrus levels *)

Module logrus.

(** [type Level uint32] *)
Definition Level := N.

Definition PanicLevel : Level := 0%N.
Definition FatalLevel : Level := 1%N.
Definition ErrorLevel : Level := 2%N.
Definition WarnLevel  : Level := 3%N.
Definition InfoLevel  : Level := 4%N.
Definition DebugLevel : Level := 5%N.
Definition TraceLevel : Level := 6%N.

Definition AllLevels : list Level :=
  [PanicLevel; FatalLevel; ErrorLevel; WarnLevel; InfoLevel; DebugLevel; TraceLevel].

(** [Level.String()] *)
Definition Level_String (l : Level) : string :=
  match l with
  | 0%N => "panic"
  | 1%N => "fatal"
  | 2%N => "error"
  | 3%N => "warning"
  | 4%N => "info"
  | 5%N => "debug"
  | 6%N => "trace"
  | _ => "unknown"
  end.

Definition ErrorKey : string := "error".

End logrus.

(** ** [time.Time] and the RFC3339Nano layout *)

Module time.

(** An instant: seconds since the Unix epoch and nanoseconds within the
    second ([0 <= nsec < 10^9]). *)
Record Time : Type := mkTime { unix : Z; nsec : Z }.

Definition digit (d : Z) : ascii := ascii_of_nat (48 + Z.to_nat d).

(** The last [w] decimal digits of [n], most significant first. *)
Fixpoint digits (w : nat) (n : Z) : string :=
  match w with
  | O => EmptyString
  | S w' => digits w' (n / 10) ++ String (digit (n mod 10)) EmptyString
  end.

Fixpoint ndigits_aux (fuel : nat) (n : Z) : nat :=
  match fuel with
  | O => O
  | S f => if (n <? 10)%Z then 1%nat else S (ndigits_aux f (n / 10))
  end.
Definition ndigits (n : Z) : nat := ndigits_aux (S (Z.to_nat (Z.log2 n))) n.

(** [appendInt(b, x, width)]: sign, then at least [width] digits. *)
Definition appendInt (x : Z) (width : nat) : string :=
  let a := Z.abs x in
  (if (x <? 0)%Z then "-" else "") ++ digits (Nat.max width (ndigits a)) a.

(** Civil date of a day number counted from 1970-01-01. *)
Definition civil (days : Z) : Z * Z * Z :=
  let z := (days + 719468)%Z in
  let era := (z / 146097)%Z in
  let doe := (z - era * 146097)%Z in
  let yoe := ((doe - doe / 1460 + doe / 36524 - doe / 146096) / 365)%Z in
  let doy := (doe - (365 * yoe + yoe / 4 - yoe / 100))%Z in
  let mp := ((5 * doy + 2) / 153)%Z in
  let d := (doy - (153 * mp + 2) / 5 + 1)%Z in
  let m := (if (mp <? 10)%Z then mp + 3 else mp - 9)%Z in
  let y := (yoe + era * 400 + (if (m <=? 2)%Z then 1 else 0))%Z in
  (y, m, d).

(** Drop the trailing zeros of a digit string. *)
Fixpoint trim0 (s : string) : string :=
  match s with
  | EmptyString => EmptyString
  | String c r =>
      match trim0 r with
      | EmptyString => if Ascii.eqb c "0"%char then EmptyString else String c EmptyString
      | r' => String c r'
      end
  end.

(** The [.999999999] part of the layout: nothing when the fraction is
    zero, otherwise a point and the digits without trailing zeros. *)
Definition formatNano (ns : Z) : string :=
  match trim0 (digits 9 ns) with
  | EmptyString => EmptyString
  | f => "." ++ f
  end.

(** [t.UTC().Format(time.RFC3339Nano)] *)
Definition FormatRFC3339NanoUTC (t : Time) : string :=
  let days := (unix t / 86400)%Z in
  let secs := (unix t mod 86400)%Z in
  let '(y, m, d) := civil days in
  appendInt y 4 ++ "-" ++ digits 2 m ++ "-" ++ digits 2 d ++ "T"
    ++ digits 2 (secs / 3600) ++ ":" ++ digits 2 (secs mod 3600 / 60) ++ ":"
    ++ digits 2 (secs mod 60) ++ formatNano (nsec t) ++ "Z".

End time.

(** ** Entries and the default formatter *)

(** [logrus.Entry], the fields the hook reads.  [Data] is the address of the
    entry's field map. *)
Record Entry : Type := mkEntry {
  Entry_Data : loc;
  Entry_Time : time.Time;
  Entry_Level : logrus.Level;
  Entry_Message : string
}.

(** Reading key [k] of the map at [l]; a nil map (no object at [l]) has no
    keys. *)
Definition map_get (hp : Heap) (l : loc) (k : string) : option Value :=
  hp !! l ≫= (fun m => m !! k).

(** [m[k] = v] on the map object at [l]. *)
Definition map_set (hp : Heap) (l : loc) (k : string) (v : Value) : Heap :=
  match hp !! l with
  | Some m => <[l := <[k := v]> m]> hp
  | None => hp
  end.

(** [Formatter], a function from an entry pointer to a [Message]: it sees the entry
    and the heap its map lives in, and may write to that heap. *)
Definition Formatter := Entry -> Heap -> Heap * Message.

Definition defaultFormatter : Formatter := fun entry hp =>
  let hp' :=
    match map_get hp (Entry_Data entry) logrus.ErrorKey with
    | Some (VErr msg) => map_set hp (Entry_Data entry) logrus.ErrorKey (VStr msg)
    | _ => hp
    end in
  (hp',
   <["@timestamp" := VStr (time.FormatRFC3339NanoUTC (Entry_Time entry))]>
   (<["message" := VStr (Entry_Message entry)]>
   (<["level" := VStr (logrus.Level_String (Entry_Level entry))]>
   (<["data" := VMap (Entry_Data entry)]> ∅)))).

(** ** The Elasticsearch client, seen from the hook *)

(** A single-document index request: [Index(..).Type(..).BodyJson(..)], and
    likewise a [BulkIndexRequest] with [Index], [Type] and [Doc]. *)
Record IndexRequest : Type := mkIndexRequest {
  req_index : string;
  req_type : string;
  req_doc : Message
}.

(** [BulkOptions] of options.go.  Go [int] and [time.Duration] are read as
    integers; interface, function and slice fields may be nil. *)
Record BulkOptions : Type := mkBulkOptions {
  Workers : Z;
  Stats : bool;
  BulkActions : Z;
  BulkSize : Z;
  FlushInterval : Z;
  Backoff : option nat;
  BulkBefore : option nat;
  BulkAfter : option nat;
  RetryItemStatusCodes : option (list Z)
}.

(** The [BulkProcessorService] builder; [None] is a setting the hook left
    at the library's default. *)
Record BulkProcessorService : Type := mkService {
  svc_name : string;
  svc_workers : option Z;
  svc_bulkActions : option Z;
  svc_bulkSize : option Z;
  svc_flushInterval : option Z;
  svc_backoff : option nat;
  svc_retryItemStatusCodes : option (list Z);
  svc_before : option nat;
  svc_after : option nat
}.

(** The behaviour of the [elastic.Client] and of the backend behind it is
    not part of the hook: each answer is given by the client. *)
Record Client : Type := mkClient {
  (** [client.IndexExists(index).Do(ctx)] *)
  IndexExists_Do : string -> bool * option Error;
  (** the outcome of one blocking index request; the flag tells whether the
      context it runs under is already cancelled *)
  Index_Do : bool -> IndexRequest -> option Error;
  (** [BulkProcessorService.Do]: whether a processor comes back (non-nil),
      and the error *)
  BulkProcessor_Do : BulkProcessorService -> bool * option Error;
  (** the outcome of committing one batch on [processor.Flush()] *)
  Flush_result : list IndexRequest -> option Error;
  (** the error of [processor.Close()] *)
  Close_result : option Error;
  (** whether the processor tolerates [Add] and [Flush] once it is stopped
      (they do nothing and return nil) or faults on them *)
  stopped_ok : bool
}.

(** A running bulk processor: its pending requests, oldest first. *)
Record BulkProcessor : Type := mkProcessor {
  bp_client : Client;
  bp_service : BulkProcessorService;
  bp_buffer : list IndexRequest;
  bp_started : bool
}.

(** What the hook does to the outside, in order. *)
Inductive Event : Type :=
| EvCancel
| EvIndex (req : IndexRequest) (r : option Error)
| EvGo (entry : Entry)
| EvAdd (p : nat) (req : IndexRequest)
| EvFlush (p : nat) (batch : list IndexRequest) (r : option Error)
| EvClose (p : nat) (r : option Error)
| EvErrorLogger (msg : string) (err : option Error).

Record World : Type := mkWorld {
  heap : Heap;
  ctx_done : bool;                 (* the hook's context is cancelled *)
  procs : list BulkProcessor;      (* processors started so far *)
  goroutines : list Entry;         (* bodies spawned by asyncFlush, not yet run *)
  trace : list Event
}.

Definition set_heap (hp : Heap) (w : World) : World :=
  mkWorld hp (ctx_done w) (procs w) (goroutines w) (trace w).
Definition set_ctx_done (b : bool) (w : World) : World :=
  mkWorld (heap w) b (procs w) (goroutines w) (trace w).
Definition set_procs (ps : list BulkProcessor) (w : World) : World :=
  mkWorld (heap w) (ctx_done w) ps (goroutines w) (trace w).
Definition set_goroutines (gs : list Entry) (w : World) : World :=
  mkWorld (heap w) (ctx_done w) (procs w) gs (trace w).
Definition emit (e : Event) (w : World) : World :=
  mkWorld (heap w) (ctx_done w) (procs w) (goroutines w) (trace w ++ [e]).

(** ** Computations: state passing, with Go's run-time panic *)

Inductive Outcome (A : Type) : Type :=
| Ret (a : A) (w : World)
| Panic.
Arguments Ret {A} a w.
Arguments Panic {A}.

Definition Go (A : Type) : Type := World -> Outcome A.

Definition ret {A} (a : A) : Go A := fun w => Ret a w.
Definition bind {A B} (m : Go A) (k : A -> Go B) : Go B := fun w =>
  match m w with
  | Ret a w' => k a w'
  | Panic => Panic
  end.
Definition modify (f : World -> World) : Go unit := fun w => Ret tt (f w).
Definition get {A} (f : World -> A) : Go A := fun w => Ret (f w) w.
Definition panic {A} : Go A := fun _ => Panic.

Declare Scope go_scope.
Delimit Scope go_scope with go.
Notation "x <- m ;; k" := (bind m (fun x => k))
  (at level 100, m at next level, right associativity) : go_scope.
Notation "m ;;; k" := (bind m (fun _ => k))
  (at level 100, right associativity) : go_scope.
Local Open Scope go_scope.

(** ** The bulk processor's methods *)

(** A method call through a processor pointer: nil faults.  What a stopped
    processor does is given by [stopped]: [Some a] returns [a] and leaves
    the world alone, [None] faults. *)
Definition with_processor {A} (processor : option nat) (stopped : Client -> option A)
    (k : nat -> BulkProcessor -> Go A) : Go A := fun w =>
  match processor with
  | None => Panic
  | Some p =>
      match procs w !! p with
      | None => Panic
      | Some bp =>
          if bp_started bp then k p bp w
          else match stopped (bp_client bp) with
               | Some a => Ret a w
               | None => Panic
               end
      end
  end.

(** [Add] and [Flush] talk to the workers, which are gone once the
    processor is stopped: the client says whether that is tolerated. *)
Definition after_stop {A} (a : A) (c : Client) : option A :=
  if stopped_ok c then Some a else None.

Definition set_buffer (b : list IndexRequest) (bp : BulkProcessor) : BulkProcessor :=
  mkProcessor (bp_client bp) (bp_service bp) b (bp_started bp).
Definition set_started (s : bool) (bp : BulkProcessor) : BulkProcessor :=
  mkProcessor (bp_client bp) (bp_service bp) (bp_buffer bp) s.

(** [processor.Add(req)] *)
Definition processor_Add (processor : option nat) (req : IndexRequest) : Go unit :=
  with_processor processor (after_stop tt) (fun p bp =>
    modify (fun w => emit (EvAdd p req)
                       (set_procs (<[p := set_buffer (bp_buffer bp ++ [req]) bp]> (procs w)) w))).

(** [processor.Flush()]: commits what is pending and leaves nothing. *)
Definition processor_Flush (processor : option nat) : Go (option Error) :=
  with_processor processor (after_stop None) (fun p bp =>
    let r := Flush_result (bp_client bp) (bp_buffer bp) in
    modify (fun w => emit (EvFlush p (bp_buffer bp) r)
                       (set_procs (<[p := set_buffer [] bp]> (procs w)) w)) ;;;
    ret r).

(** [processor.Close()]; on a stopped processor it does nothing and returns
    nil. *)
Definition processor_Close (processor : option nat) : Go (option Error) :=
  with_processor processor (fun _ => Some None) (fun p bp =>
    let r := Close_result (bp_client bp) in
    modify (fun w => emit (EvClose p r)
                       (set_procs (<[p := set_started false bp]> (procs w)) w)) ;;;
    ret r).

(** ** The hook *)

(** [ErrorLogger] is a callback; a call to it is an [EvErrorLogger] of the
    trace.  The value only names the callback. *)
Definition ErrorLogger := nat.

(** The functions the package stores in [Hook.flushFunc]: [syncFlush],
    [asyncFlush], and the closure built by [EnableBulkFlush] around the
    processor it started. *)
Inductive flushFunc : Type :=
| flush_sync
| flush_async
| flush_bulk (processor : option nat).

(** The functions stored in [Hook.cancel]: the context's own [CancelFunc],
    and the closure of [EnableBulkFlush] around the previous cancel function
    and the processor. *)
Inductive cancelFunc : Type :=
| cancel_ctx
| cancel_bulk (cancel : cancelFunc) (processor : option nat).

(** [Hook].  Its [ctx] is the context of the world ([ctx_done]). *)
Record Hook : Type := mkHook {
  Hook_client : Client;
  Hook_index : string;
  Hook_docType : string;
  Hook_levels : list logrus.Level;
  Hook_cancel : cancelFunc;
  Hook_formatter : Formatter;
  Hook_flushFunc : flushFunc;
  Hook_errorLogger : option ErrorLogger
}.

(** [hook.formatter(entry)]: the formatter runs on the shared heap. *)
Definition call_formatter (hook : Hook) (entry : Entry) : Go Message := fun w =>
  let '(hp, doc) := Hook_formatter hook entry (heap w) in
  Ret doc (set_heap hp w).

(** [cancel()] of [context.WithCancel]. *)
Definition ctx_cancel : Go unit :=
  modify (fun w => emit EvCancel (set_ctx_done true w)).

(** [if e != nil && h.errorLogger != nil { h.errorLogger(msg, e) }] *)
Definition log_error (h : Hook) (msg : string) (e : option Error) : Go unit :=
  match e, Hook_errorLogger h with
  | Some _, Some _ => modify (emit (EvErrorLogger msg e))
  | _, _ => ret tt
  end.

Definition syncFlush (entry : Entry) (hook : Hook) : Go (option Error) :=
  doc <- call_formatter hook entry ;;
  let req := mkIndexRequest (Hook_index hook) (Hook_docType hook) doc in
  done <- get ctx_done ;;
  let err := Index_Do (Hook_client hook) done req in
  modify (emit (EvIndex req err)) ;;;
  ret err.

(** The body of the goroutine of [asyncFlush]. *)
Definition asyncFlush_go (entry : Entry) (hook : Hook) : Go unit :=
  err <- syncFlush entry hook ;;
  match Hook_errorLogger hook with
  | Some _ => modify (emit (EvErrorLogger "couldn't send log to elastic" err))
  | None => ret tt
  end.

(** [asyncFlush]: the body is only spawned; it runs when the scheduler picks
    it ([run_goroutine]). *)
Definition asyncFlush (entry : Entry) (hook : Hook) : Go (option Error) :=
  modify (fun w => emit (EvGo entry) (set_goroutines (goroutines w ++ [entry]) w)) ;;;
  ret None.

(** The scheduler runs the [i]-th pending goroutine; it reads the hook as it
    is then, the closure holding a pointer to it. *)
Definition run_goroutine (i : nat) (hook : Hook) : Go unit := fun w =>
  match goroutines w !! i with
  | Some entry => asyncFlush_go entry hook (set_goroutines (delete i (goroutines w)) w)
  | None => Ret tt w
  end.

(** The flush function installed by [EnableBulkFlush]. *)
Definition bulkFlush (processor : option nat) (entry : Entry) (hook : Hook)
    : Go (option Error) :=
  doc <- call_formatter hook entry ;;
  let req := mkIndexRequest (Hook_index hook) (Hook_docType hook) doc in
  processor_Add processor req ;;;
  ret None.

Definition call_flushFunc (f : flushFunc) (entry : Entry) (hook : Hook)
    : Go (option Error) :=
  match f with
  | flush_sync => syncFlush entry hook
  | flush_async => asyncFlush entry hook
  | flush_bulk processor => bulkFlush processor entry hook
  end.

(** Calling a stored cancel function; the closure of [EnableBulkFlush] reads
    [h.errorLogger] when it runs. *)
Fixpoint call_cancel (c : cancelFunc) (h : Hook) : Go unit :=
  match c with
  | cancel_ctx => ctx_cancel
  | cancel_bulk cancel processor =>
      call_cancel cancel h ;;;
      e <- processor_Flush processor ;;
      log_error h "couldn't flush" e ;;;
      e <- processor_Close processor ;;
      log_error h "couldn't close" e
  end.

Definition New (client : Client) (index : string) : Go (option Hook * option Error) :=
  modify (set_ctx_done false) ;;;
  let '(exists_, err) := IndexExists_Do client index in
  match err with
  | Some e => ctx_cancel ;;; ret (None, Some e)
  | None =>
      if negb exists_ then
        ctx_cancel ;;; ret (None, Some (mkError "index not exists"))
      else
        ret (Some (mkHook client index "doc" logrus.AllLevels cancel_ctx
                     defaultFormatter flush_sync None), None)
  end.

Definition SetLevel (level : logrus.Level) (h : Hook) : Hook :=
  let levels :=
    fold_left (fun levels l => if (l <=? level)%N then (levels ++ [l])%list else levels)
      logrus.AllLevels [] in
  mkHook (Hook_client h) (Hook_index h) (Hook_docType h) levels (Hook_cancel h)
    (Hook_formatter h) (Hook_flushFunc h) (Hook_errorLogger h).

Definition SetFormatter (formatter : Formatter) (h : Hook) : Hook :=
  mkHook (Hook_client h) (Hook_index h) (Hook_docType h) (Hook_levels h) (Hook_cancel h)
    formatter (Hook_flushFunc h) (Hook_errorLogger h).

Definition SetDocumentType (t : string) (h : Hook) : Hook :=
  mkHook (Hook_client h) (Hook_index h) t (Hook_levels h) (Hook_cancel h)
    (Hook_formatter h) (Hook_flushFunc h) (Hook_errorLogger h).

Definition set_flushFunc (f : flushFunc) (h : Hook) : Hook :=
  mkHook (Hook_client h) (Hook_index h) (Hook_docType h) (Hook_levels h) (Hook_cancel h)
    (Hook_formatter h) f (Hook_errorLogger h).

Definition set_cancel (c : cancelFunc) (h : Hook) : Hook :=
  mkHook (Hook_client h) (Hook_index h) (Hook_docType h) (Hook_levels h) c
    (Hook_formatter h) (Hook_flushFunc h) (Hook_errorLogger h).

(** The settings [EnableBulkFlush] hands to the processor service. *)
Definition bulk_service (options : BulkOptions) : BulkProcessorService :=
  mkService "elasticlogrus"
    (if (0 <? Workers options)%Z then Some (Workers options) else None)
    (if (BulkActions options =? 0)%Z then None else Some (BulkActions options))
    (if (BulkSize options =? 0)%Z then None else Some (BulkSize options))
    (if (FlushInterval options =? 0)%Z then None else Some (FlushInterval options))
    (Backoff options)
    (RetryItemStatusCodes options)
    (BulkBefore options)
    (BulkAfter options).

(** [EnableBulkFlush]; [options] is a pointer, nil faults at its first use.
    The processor is started with [context.Background()], not the hook's
    context. *)
Definition EnableBulkFlush (options : option BulkOptions) (h : Hook)
    : Go (Hook * option Error) :=
  match options with
  | None => panic
  | Some o =>
      let s := bulk_service o in
      let '(started, err) := BulkProcessor_Do (Hook_client h) s in
      n <- get (fun w => length (procs w)) ;;
      let processor := if started then Some n else None in
      (if started
       then modify (fun w => set_procs (procs w ++ [mkProcessor (Hook_client h) s [] true]) w)
       else ret tt) ;;;
      ret (set_flushFunc (flush_bulk processor)
             (set_cancel (cancel_bulk (Hook_cancel h) processor) h), err)
  end.

Definition EnableAsyncFlush (h : Hook) : Hook := set_flushFunc flush_async h.

Definition EnableSyncFlush (h : Hook) : Hook := set_flushFunc flush_sync h.

Definition Fire (entry : Entry) (h : Hook) : Go (option Error) :=
  call_flushFunc (Hook_flushFunc h) entry h.

Definition Levels (h : Hook) : list logrus.Level := Hook_levels h.

Definition Close (h : Hook) : Go unit := call_cancel (Hook_cancel h) h.

(** The hook [New] hands out: synchronous delivery, the default formatter,
    document type "doc", every level, no error logger. *)
Definition Ready (client : Client) (index : string) (h : Hook) : Prop :=
  h = mkHook client index "doc" logrus.AllLevels cancel_ctx defaultFormatter flush_sync None.

(** ** Sample clients, worlds and entries *)

(** A backend where everything succeeds and the index exists. *)
Definition good_client : Client :=
  mkClient (fun _ => (true, None)) (fun _ _ => None) (fun _ => (true, None))
    (fun _ => None) None true.


(** A backend that refuses every request. *)
Definition down_client : Client :=
  mkClient (fun _ => (false, Some (mkError "no route to host")))
    (fun _ _ => Some (mkError "no route to host"))
    (fun _ => (false, Some (mkError "cannot start")))
    (fun _ => Some (mkError "bulk failed")) (Some (mkError "close failed")) true.

(** The index exists, single requests succeed, the processor starts but its
    commits and its close fail. *)
Definition flaky_bulk_client : Client :=
  mkClient (fun _ => (true, None)) (fun _ _ => None) (fun _ => (true, None))
    (fun _ => Some (mkError "bulk failed")) (Some (mkError "close failed")) true.

(** One field map at address 1, holding an error under the error key. *)
Definition sample_world : World :=
  mkWorld {[ 1%positive := {[ logrus.ErrorKey := VErr "this is error" ]} ]} false [] [] [].

Definition sample_entry : Entry :=
  mkEntry 1%positive (time.mkTime 1234567890 0) logrus.DebugLevel "Hello world!".

(** The hook [New good_client "logs"] returns. *)
Definition sample_hook (c : Client) : Hook :=
  mkHook c "logs" "doc" logrus.AllLevels cancel_ctx defaultFormatter flush_sync None.

Definition set_errorLogger (l : option ErrorLogger) (h : Hook) : Hook :=
  mkHook (Hook_client h) (Hook_index h) (Hook_docType h) (Hook_levels h) (Hook_cancel h)
    (Hook_formatter h) (Hook_flushFunc h) l.

Definition sample_options : BulkOptions :=
  mkBulkOptions 2 false 0 0 1000000000 None None None None.

(** [sample_hook c] after a successful [EnableBulkFlush] in a world without
    processors, and that world afterwards. *)
Definition bulk_hook (c : Client) : Hook :=
  set_flushFunc (flush_bulk (Some 0%nat))
    (set_cancel (cancel_bulk cancel_ctx (Some 0%nat)) (sample_hook c)).


(** A request waiting in the processor, and the world holding it. *)
Definition sample_request : IndexRequest := mkIndexRequest "logs" "doc" ∅.

Definition queued_world (c : Client) : World :=
  set_procs [mkProcessor c (bulk_service sample_options) [sample_request] true] sample_world.

(** A formatter of the caller's own, with one field. *)
Definition component_formatter : Formatter := fun _ hp =>
  (hp, {[ "component" := VStr "test" ]}).

(** Bulk mode enabled twice on [sample_hook c], and a world with the two
    processors, the first one holding a request. *)
Definition twice_bulk_hook (c : Client) : Hook :=
  set_flushFunc (flush_bulk (Some 1%nat))
    (set_cancel (cancel_bulk (cancel_bulk cancel_ctx (Some 0%nat)) (Some 1%nat))
       (sample_hook c)).

Definition twice_bulk_world (c : Client) : World :=
  set_procs [mkProcessor c (bulk_service sample_options) [sample_request] true;
             mkProcessor c (bulk_service sample_options) [] true] sample_world.

(** The calls [log_error] makes: one when there is an error and a logger. *)
Definition reported (h : Hook) (msg : string) (e : option Error) : list Event :=
  match e, Hook_errorLogger h with
  | Some _, Some _ => [EvErrorLogger msg e]
  | _, _ => []
  end.

(** ** Callers *)

(** A logger handing entries to the hook one after the other. *)
Fixpoint fire_all (entries : list Entry) (h : Hook) : Go (list (option Error)) :=
  match entries with
  | [] => ret []
  | e :: es =>
      r <- Fire e h ;;
      rs <- fire_all es h ;;
      ret (r :: rs)
  end.

(** The requests the hook builds for these entries, the formatter running on
    the heap the previous entry left, and the heap after the last one. *)
Fixpoint requests_of (entries : list Entry) (h : Hook) (hp : Heap)
    : list IndexRequest * Heap :=
  match entries with
  | [] => ([], hp)
  | e :: es =>
      let '(hp1, doc) := Hook_formatter h e hp in
      let '(rs, hp2) := requests_of es h hp1 in
      (mkIndexRequest (Hook_index h) (Hook_docType h) doc :: rs, hp2)
  end.

(** The calls to the error logger in a trace. *)
Definition errorLogger_calls (tr : list Event) : list Event :=
  List.filter (fun e => match e with EvErrorLogger _ _ => true | _ => false end) tr.

(** What an operation may do to the world besides what it sends: [w'] has
    the heap, the context and the goroutines of [w], as many processors, and
    the trace of [w] followed by [evs]. *)
Definition extends_by (w w' : World) (evs : list Event) : Prop :=
  trace w' = (trace w ++ evs)%list
  /\ heap w' = heap w /\ ctx_done w' = ctx_done w
  /\ goroutines w' = goroutines w /\ length (procs w') = length (procs w).

(** * Properties *)

Local Open Scope list_scope.

(** ** Time layout, on known instants *)

Example format_epoch :
  time.FormatRFC3339NanoUTC (time.mkTime 0 0) = "1970-01-01T00:00:00Z".
Proof. reflexivity. Qed.

Example format_1234567890 :
  time.FormatRFC3339NanoUTC (time.mkTime 1234567890 123456789)
  = "2009-02-13T23:31:30.123456789Z".
Proof. reflexivity. Qed.

Example format_half_second :
  time.FormatRFC3339NanoUTC (time.mkTime 951782400 500000000)
  = "2000-02-29T00:00:00.5Z".
Proof. reflexivity. Qed.

Example format_before_epoch :
  time.FormatRFC3339NanoUTC (time.mkTime (-1) 1000)
  = "1969-12-31T23:59:59.000001Z".
Proof. reflexivity. Qed.

(** ** The heap of field maps *)

Lemma map_get_set_eq (hp : Heap) (l : loc) (k : string) (v : Value) :
  is_Some (hp !! l) -> map_get (map_set hp l k v) l k = Some v.
Proof.
  intros [m Hm]. unfold map_get, map_set. rewrite Hm.
  rewrite lookup_insert_eq. simpl. apply lookup_insert_eq.
Qed.

Lemma map_get_set_key_ne (hp : Heap) (l : loc) (k k' : string) (v : Value) :
  k <> k' -> map_get (map_set hp l k v) l k' = map_get hp l k'.
Proof.
  intros Hk. unfold map_get, map_set.
  destruct (hp !! l) as [m|] eqn:Hm; [|by rewrite Hm].
  rewrite lookup_insert_eq. simpl. by rewrite lookup_insert_ne.
Qed.

Lemma map_set_other_loc (hp : Heap) (l l' : loc) (k : string) (v : Value) :
  l <> l' -> map_set hp l k v !! l' = hp !! l'.
Proof.
  intros Hl. unfold map_set. destruct (hp !! l); [|done].
  by rewrite lookup_insert_ne.
Qed.

Lemma map_get_is_Some (hp : Heap) (l : loc) (k : string) (v : Value) :
  map_get hp l k = Some v -> is_Some (hp !! l).
Proof. unfold map_get. destruct (hp !! l); [eauto | discriminate]. Qed.

(** ** The default formatter *)

(** What the formatter leaves under the error key: an error value has
    become its message, anything else is as it was. *)
Lemma defaultFormatter_error_key (entry : Entry) (hp : Heap) :
  map_get (fst (defaultFormatter entry hp)) (Entry_Data entry) logrus.ErrorKey
  = match map_get hp (Entry_Data entry) logrus.ErrorKey with
    | Some (VErr msg) => Some (VStr msg)
    | v => v
    end.
Proof.
  unfold defaultFormatter. simpl.
  destruct (map_get hp (Entry_Data entry) logrus.ErrorKey) as [[]|] eqn:E; try done.
  apply map_get_set_eq. eapply map_get_is_Some, E.
Qed.

(** C4. For every entry the default formatter returns a document with
    exactly the four fields "@timestamp", "message", "level" and "data":
    the RFC3339Nano UTC string of the entry's time, its message, the name of
    its level, and its field map (by reference).  In the heap the formatter
    leaves, that field map holds under the error key the message of an error
    value that was there, never an error value itself. *)
Theorem defaultFormatter_document (entry : Entry) (hp : Heap) :
  let hp' := fst (defaultFormatter entry hp) in
  let doc := snd (defaultFormatter entry hp) in
  dom doc = ({[ "@timestamp"; "message"; "level"; "data" ]} : gset string)
  /\ doc !! "@timestamp" = Some (VStr (time.FormatRFC3339NanoUTC (Entry_Time entry)))
  /\ doc !! "message" = Some (VStr (Entry_Message entry))
  /\ doc !! "level" = Some (VStr (logrus.Level_String (Entry_Level entry)))
  /\ doc !! "data" = Some (VMap (Entry_Data entry))
  /\ map_get hp' (Entry_Data entry) logrus.ErrorKey
     = match map_get hp (Entry_Data entry) logrus.ErrorKey with
       | Some (VErr msg) => Some (VStr msg)
       | v => v
       end
  /\ (forall msg, map_get hp' (Entry_Data entry) logrus.ErrorKey <> Some (VErr msg)).
Proof.
  cbv zeta. split; [|split; [|split; [|split; [|split; [|split]]]]].
  - unfold defaultFormatter; cbn [fst snd]. rewrite !dom_insert_L, dom_empty_L. set_solver.
  - unfold defaultFormatter; cbn [fst snd]. by simplify_map_eq.
  - unfold defaultFormatter; cbn [fst snd]. by simplify_map_eq.
  - unfold defaultFormatter; cbn [fst snd]. by simplify_map_eq.
  - unfold defaultFormatter; cbn [fst snd]. by simplify_map_eq.
  - apply defaultFormatter_error_key.
  - intros msg. rewrite defaultFormatter_error_key.
    destruct (map_get hp (Entry_Data entry) logrus.ErrorKey) as [[]|]; congruence.
Qed.

(** C7. When the entry's field map holds an error value under the error
    key, the default formatter overwrites it, in the map object itself, with
    its message: whoever holds the entry reads the string afterwards, the
    heap has changed, and no other key or map has.  Otherwise the heap is
    left as it was. *)
Theorem defaultFormatter_mutates_in_place (entry : Entry) (hp : Heap) :
  let hp' := fst (defaultFormatter entry hp) in
  match map_get hp (Entry_Data entry) logrus.ErrorKey with
  | Some (VErr msg) =>
      hp' !! Entry_Data entry = (fun m => <[logrus.ErrorKey := VStr msg]> m) <$> hp !! Entry_Data entry
      /\ map_get hp' (Entry_Data entry) logrus.ErrorKey = Some (VStr msg)
      /\ hp' <> hp
      /\ (forall k, k <> logrus.ErrorKey ->
            map_get hp' (Entry_Data entry) k = map_get hp (Entry_Data entry) k)
      /\ (forall l, l <> Entry_Data entry -> hp' !! l = hp !! l)
  | _ => hp' = hp
  end.
Proof.
  cbv zeta.
  destruct (map_get hp (Entry_Data entry) logrus.ErrorKey) as [v|] eqn:E.
  2:{ unfold defaultFormatter. simpl. by rewrite E. }
  destruct v; try (unfold defaultFormatter; simpl; by rewrite E).
  assert (Hget : map_get (fst (defaultFormatter entry hp)) (Entry_Data entry) logrus.ErrorKey
                 = Some (VStr msg)).
  { rewrite defaultFormatter_error_key. by rewrite E. }
  assert (Hfst : fst (defaultFormatter entry hp)
                 = map_set hp (Entry_Data entry) logrus.ErrorKey (VStr msg)).
  { unfold defaultFormatter. simpl. by rewrite E. }
  repeat split.
  - rewrite Hfst. unfold map_set.
    destruct (map_get_is_Some _ _ _ _ E) as [m Hm]. rewrite Hm.
    by rewrite lookup_insert_eq.
  - exact Hget.
  - intros Heq. rewrite Heq in Hget. congruence.
  - intros k Hk. rewrite Hfst. by apply map_get_set_key_ne.
  - intros l Hl. rewrite Hfst. by apply map_set_other_loc.
Qed.

(** ** Levels *)

Lemma append_loop_filter {A} (P : A -> bool) (xs acc : list A) :
  fold_left (fun acc x => if P x then (acc ++ [x])%list else acc) xs acc
  = (acc ++ List.filter P xs)%list.
Proof.
  revert acc. induction xs as [|x xs IH]; intros acc; simpl.
  - by rewrite app_nil_r.
  - rewrite IH. destruct (P x); [|done]. by rewrite <- app_assoc.
Qed.

Lemma Levels_SetLevel (level : logrus.Level) (h : Hook) :
  Levels (SetLevel level h) = List.filter (fun l => (l <=? level)%N) logrus.AllLevels.
Proof.
  unfold Levels, SetLevel. cbn [Hook_levels].
  exact (append_loop_filter (fun l => (l <=? level)%N) logrus.AllLevels []).
Qed.

Lemma In_Levels_SetLevel (level l : logrus.Level) (h : Hook) :
  In l (Levels (SetLevel level h)) <-> In l logrus.AllLevels /\ (l <= level)%N.
Proof.
  rewrite Levels_SetLevel, filter_In. by rewrite N.leb_le.
Qed.

(** C6. For every logrus level [level], after [SetLevel level] the level
    set the hook exposes is [level] itself together with every level of
    [AllLevels] whose number is at most [level] (the more severe ones), and
    no level with a greater number. *)
Theorem SetLevel_this_and_more_severe (level : logrus.Level) (h : Hook)
    (Hlevel : In level logrus.AllLevels) :
  In level (Levels (SetLevel level h))
  /\ (forall l, In l (Levels (SetLevel level h)) <-> In l logrus.AllLevels /\ (l <= level)%N)
  /\ (forall l, (level < l)%N -> ~ In l (Levels (SetLevel level h))).
Proof.
  split; [|split].
  - apply In_Levels_SetLevel. split; [done | lia].
  - intros l. apply In_Levels_SetLevel.
  - intros l Hlt [_ Hle]%In_Levels_SetLevel. lia.
Qed.

(** ** Construction *)

(** C3. [New] returns an error exactly when the existence check fails or
    the index is absent.  With an error no hook is returned and the context
    is cancelled; a failed check hands back its own error.  Without one the
    hook is returned, ready, under a live context.  [New] never faults. *)
Theorem New_error_iff (client : Client) (index : string) (w : World) :
  exists (oh : option Hook) (oe : option Error) (w' : World),
    New client index w = Ret (oh, oe) w'
    /\ (is_Some oe <->
        is_Some (snd (IndexExists_Do client index)) \/ fst (IndexExists_Do client index) = false)
    /\ (is_Some oe -> oh = None /\ ctx_done w' = true)
    /\ (forall e, snd (IndexExists_Do client index) = Some e -> oe = Some e)
    /\ (oe = None -> exists h, oh = Some h /\ Ready client index h /\ ctx_done w' = false).
Proof.
  unfold New, bind, modify, ctx_cancel, ret, Ready.
  destruct (IndexExists_Do client index) as [exists_ [e|]]; [|destruct exists_];
    simpl; eexists _, _, _; (split; [reflexivity|]); simpl;
    rewrite ?is_Some_alt; intuition (try congruence; try discriminate; eauto).
Qed.

(** ** Fire *)

Lemma Fire_SetLevel (entry : Entry) (level : logrus.Level) (h : Hook) (w : World) :
  Fire entry (SetLevel level h) w = Fire entry h w.
Proof. unfold Fire. simpl. by destruct (Hook_flushFunc h). Qed.

(** C1, as the code has it.  [Fire] does not look at the level of the entry
    or at the level set of the hook: whatever level was set, it calls the
    active flush function on the entry and returns what that returns.  In
    synchronous mode the entry is formatted, one index request is issued,
    and its result is the result of [Fire]. *)
Theorem Fire_delegates_whatever_the_level
    (entry : Entry) (level : logrus.Level) (h : Hook) (w : World) :
  Fire entry (SetLevel level h) w = Fire entry h w
  /\ Fire entry h w = call_flushFunc (Hook_flushFunc h) entry h w
  /\ (Hook_flushFunc h = flush_sync ->
      let hp := fst (Hook_formatter h entry (heap w)) in
      let req := mkIndexRequest (Hook_index h) (Hook_docType h)
                   (snd (Hook_formatter h entry (heap w))) in
      let err := Index_Do (Hook_client h) (ctx_done w) req in
      Fire entry h w = Ret err (emit (EvIndex req err) (set_heap hp w))).
Proof.
  split; [apply Fire_SetLevel | split; [done|]].
  intros Hsync. cbv zeta. unfold Fire. rewrite Hsync. simpl.
  unfold syncFlush, bind, call_formatter, get, modify, ret.
  by destruct (Hook_formatter h entry (heap w)).
Qed.

(** C1 as stated fails: the hook is set to the error level, the entry is a
    debug entry, and [Fire] still formats it and sends the index request. *)
Lemma Fire_below_threshold_reaches_the_index :
  let h := SetLevel logrus.ErrorLevel (sample_hook good_client) in
  ~ In (Entry_Level sample_entry) (Levels h)
  /\ exists req w',
       Fire sample_entry h sample_world = Ret None w'
       /\ trace w' = [EvIndex req None]
       /\ req_index req = "logs".
Proof.
  cbv zeta. split.
  - rewrite In_Levels_SetLevel. intros [_ Hle]. vm_compute in Hle. by apply Hle.
  - eexists _, _. split; [|split].
    + vm_compute. reflexivity.
    + reflexivity.
    + reflexivity.
Qed.

(** ** Asynchronous delivery *)

(** [asyncFlush] only spawns: nil comes back at once, nothing has reached
    the index and the error logger has not been called. *)
Lemma asyncFlush_returns_nil (entry : Entry) (hook : Hook) (w : World) :
  asyncFlush entry hook w
  = Ret None (emit (EvGo entry) (set_goroutines (goroutines w ++ [entry]) w)).
Proof. reflexivity. Qed.

(** The spawned body with an error logger set: the logger is called with
    whatever the delivery returned, nil included. *)
Lemma asyncFlush_go_logs_any_result (entry : Entry) (hook : Hook) (w : World)
    (l : ErrorLogger) :
  Hook_errorLogger hook = Some l ->
  match syncFlush entry hook w with
  | Ret err w1 =>
      asyncFlush_go entry hook w
      = Ret tt (emit (EvErrorLogger "couldn't send log to elastic" err) w1)
  | Panic => asyncFlush_go entry hook w = Panic
  end.
Proof.
  intros Hl. unfold asyncFlush_go, bind.
  destruct (syncFlush entry hook w); [|done]. by rewrite Hl.
Qed.


(** ** The bulk processor *)

Lemma processor_Add_started (p : nat) (bp : BulkProcessor) (req : IndexRequest) (w : World) :
  procs w !! p = Some bp -> bp_started bp = true ->
  processor_Add (Some p) req w
  = Ret tt (emit (EvAdd p req)
              (set_procs (<[p := set_buffer (bp_buffer bp ++ [req]) bp]> (procs w)) w)).
Proof.
  intros Hp Hs. unfold processor_Add, with_processor. by rewrite Hp, Hs.
Qed.

Lemma processor_Flush_started (p : nat) (bp : BulkProcessor) (w : World) :
  procs w !! p = Some bp -> bp_started bp = true ->
  processor_Flush (Some p) w
  = Ret (Flush_result (bp_client bp) (bp_buffer bp))
      (emit (EvFlush p (bp_buffer bp) (Flush_result (bp_client bp) (bp_buffer bp)))
         (set_procs (<[p := set_buffer [] bp]> (procs w)) w)).
Proof.
  intros Hp Hs. unfold processor_Flush, with_processor. by rewrite Hp, Hs.
Qed.

Lemma processor_Close_started (p : nat) (bp : BulkProcessor) (w : World) :
  procs w !! p = Some bp -> bp_started bp = true ->
  processor_Close (Some p) w
  = Ret (Close_result (bp_client bp))
      (emit (EvClose p (Close_result (bp_client bp)))
         (set_procs (<[p := set_started false bp]> (procs w)) w)).
Proof.
  intros Hp Hs. unfold processor_Close, with_processor. by rewrite Hp, Hs.
Qed.



Lemma log_error_reported (h : Hook) (msg : string) (e : option Error) (w : World) :
  log_error h msg e w
  = Ret tt (mkWorld (heap w) (ctx_done w) (procs w) (goroutines w)
              (trace w ++ reported h msg e)).
Proof.
  unfold log_error, reported. destruct w.
  destruct e, (Hook_errorLogger h); simpl; unfold ret, modify, emit; simpl;
    by rewrite ?app_nil_r.
Qed.

(** One level of the closure of [EnableBulkFlush]. *)
Lemma call_cancel_bulk_step (c : cancelFunc) (q : option nat) (h : Hook) (w : World) :
  call_cancel (cancel_bulk c q) h w
  = match call_cancel c h w with
    | Ret _ w1 =>
        match processor_Flush q w1 with
        | Ret e w2 =>
            match log_error h "couldn't flush" e w2 with
            | Ret _ w3 =>
                match processor_Close q w3 with
                | Ret e' w4 => log_error h "couldn't close" e' w4
                | Panic => Panic
                end
            | Panic => Panic
            end
        | Panic => Panic
        end
    | Panic => Panic
    end.
Proof. reflexivity. Qed.

(** The world the cancel function leaves after bulk mode was enabled once
    on a running processor. *)
Lemma call_cancel_bulk_world (h : Hook) (w : World) (p : nat) (bp : BulkProcessor) :
  procs w !! p = Some bp -> bp_started bp = true ->
  call_cancel (cancel_bulk cancel_ctx (Some p)) h w
  = Ret tt (mkWorld (heap w) true
              (<[p := set_started false (set_buffer [] bp)]>
                 (<[p := set_buffer [] bp]> (procs w)))
              (goroutines w)
              ((((trace w ++ [EvCancel])
                   ++ [EvFlush p (bp_buffer bp) (Flush_result (bp_client bp) (bp_buffer bp))])
                  ++ reported h "couldn't flush" (Flush_result (bp_client bp) (bp_buffer bp))
                  ++ [EvClose p (Close_result (bp_client bp))])
                 ++ reported h "couldn't close" (Close_result (bp_client bp)))).
Proof.
  intros Hp Hs. rewrite call_cancel_bulk_step. cbn [call_cancel].
  unfold ctx_cancel, modify.
  assert (Hlt : p < length (procs w)) by by eapply lookup_lt_Some.
  erewrite processor_Flush_started; [|exact Hp|exact Hs].
  rewrite log_error_reported.
  erewrite processor_Close_started;
    [|cbn; by apply list_lookup_insert_eq|exact Hs].
  rewrite log_error_reported. cbn. by rewrite <- !app_assoc.
Qed.

Lemma Close_bulk_world (h : Hook) (w : World) (p : nat) (bp : BulkProcessor) :
  Hook_cancel h = cancel_bulk cancel_ctx (Some p) ->
  procs w !! p = Some bp -> bp_started bp = true ->
  Close h w
  = Ret tt (mkWorld (heap w) true
              (<[p := set_started false (set_buffer [] bp)]>
                 (<[p := set_buffer [] bp]> (procs w)))
              (goroutines w)
              ((((trace w ++ [EvCancel])
                   ++ [EvFlush p (bp_buffer bp) (Flush_result (bp_client bp) (bp_buffer bp))])
                  ++ reported h "couldn't flush" (Flush_result (bp_client bp) (bp_buffer bp))
                  ++ [EvClose p (Close_result (bp_client bp))])
                 ++ reported h "couldn't close" (Close_result (bp_client bp)))).
Proof.
  intros Hcancel Hp Hs. unfold Close. rewrite Hcancel.
  by apply call_cancel_bulk_world.
Qed.


(** ** Bulk delivery *)

(** C8. In bulk mode [Fire] never returns an error, whatever the entry and
    the world.  When the processor of the hook is running, [Fire] formats
    the entry, adds one request for the hook's index and document type at
    the end of the processor's buffer, touches no other processor, and
    returns nil. *)
Theorem bulk_Fire_enqueues (entry : Entry) (h : Hook) (w : World)
    (processor : option nat)
    (Hbulk : Hook_flushFunc h = flush_bulk processor) :
  (forall e w', Fire entry h w <> Ret (Some e) w')
  /\ (forall p bp,
        processor = Some p -> procs w !! p = Some bp -> bp_started bp = true ->
        let req := mkIndexRequest (Hook_index h) (Hook_docType h)
                     (snd (Hook_formatter h entry (heap w))) in
        exists w',
          Fire entry h w = Ret None w'
          /\ procs w' !! p = Some (set_buffer (bp_buffer bp ++ [req]) bp)
          /\ (forall q, q <> p -> procs w' !! q = procs w !! q)
          /\ trace w' = trace w ++ [EvAdd p req]
          /\ heap w' = fst (Hook_formatter h entry (heap w))).
Proof.
  unfold Fire. rewrite Hbulk. cbn [call_flushFunc]. unfold bulkFlush, bind, call_formatter.
  destruct (Hook_formatter h entry (heap w)) as [hp doc] eqn:Hf. split.
  - intros e w'. destruct (processor_Add _ _ _); [|done]. unfold ret. congruence.
  - intros p bp -> Hp Hs. cbv zeta. cbn [fst snd].
    erewrite processor_Add_started; [|exact Hp|exact Hs].
    eexists. split; [reflexivity|]. cbn. split; [|split; [|done]].
    + apply list_lookup_insert_eq. by eapply lookup_lt_Some.
    + intros q Hq. by apply list_lookup_insert_ne.
Qed.


(** ** Enabling bulk mode *)

Lemma EnableBulkFlush_result (o : BulkOptions) (h : Hook) (w : World) :
  EnableBulkFlush (Some o) h w
  = let started := fst (BulkProcessor_Do (Hook_client h) (bulk_service o)) in
    let err := snd (BulkProcessor_Do (Hook_client h) (bulk_service o)) in
    let processor := if started then Some (length (procs w)) else None in
    Ret (set_flushFunc (flush_bulk processor)
           (set_cancel (cancel_bulk (Hook_cancel h) processor) h), err)
        (if started
         then set_procs (procs w ++ [mkProcessor (Hook_client h) (bulk_service o) [] true]) w
         else w).
Proof.
  unfold EnableBulkFlush.
  destruct (BulkProcessor_Do (Hook_client h) (bulk_service o)) as [[] err]; reflexivity.
Qed.


(** C10. When starting the processor returns an error, [EnableBulkFlush]
    returns that error and has all the same replaced the flush function by
    the bulk one and wrapped the cancel function around the processor it got
    back; a hook that delivered synchronously or asynchronously no longer
    does.  The other fields are untouched. *)
Theorem EnableBulkFlush_not_atomic (o : BulkOptions) (h : Hook) (w : World)
    (started : bool) (e : Error)
    (Hdo : BulkProcessor_Do (Hook_client h) (bulk_service o) = (started, Some e)) :
  exists h' w' processor,
    EnableBulkFlush (Some o) h w = Ret (h', Some e) w'
    /\ Hook_flushFunc h' = flush_bulk processor
    /\ Hook_cancel h' = cancel_bulk (Hook_cancel h) processor
    /\ (Hook_flushFunc h = flush_sync \/ Hook_flushFunc h = flush_async ->
        Hook_flushFunc h' <> Hook_flushFunc h)
    /\ Hook_cancel h' <> Hook_cancel h
    /\ (Hook_client h', Hook_index h', Hook_docType h', Hook_levels h',
        Hook_formatter h', Hook_errorLogger h')
       = (Hook_client h, Hook_index h, Hook_docType h, Hook_levels h,
          Hook_formatter h, Hook_errorLogger h).
Proof.
  rewrite EnableBulkFlush_result, Hdo. cbn [fst snd].
  eexists _, _, _. split; [reflexivity|]. cbn.
  split; [done|split; [done|split; [|split; [|done]]]].
  - intros [-> | ->]; discriminate.
  - clear. generalize (if started then Some (length (procs w)) else None).
    induction (Hook_cancel h) as [|c IH q]; intros o' H; [discriminate|].
    injection H as H1 H2. by eapply IH.
Qed.

(** ** Closing twice *)

Lemma Close_plain (h : Hook) (w : World) :
  Hook_cancel h = cancel_ctx ->
  Close h w = Ret tt (emit EvCancel (set_ctx_done true w)).
Proof. intros Hc. unfold Close. by rewrite Hc. Qed.



(** * The theorems at work on the samples *)

Lemma SetLevel_this_and_more_severe_witness :
  In logrus.WarnLevel logrus.AllLevels
  /\ In logrus.WarnLevel (Levels (SetLevel logrus.WarnLevel (sample_hook good_client)))
  /\ ~ In logrus.InfoLevel (Levels (SetLevel logrus.WarnLevel (sample_hook good_client))).
Proof.
  assert (H : In logrus.WarnLevel logrus.AllLevels) by (simpl; auto 10).
  split; [exact H|].
  destruct (SetLevel_this_and_more_severe logrus.WarnLevel (sample_hook good_client) H)
    as (H1 & _ & H3).
  split; [exact H1|]. apply H3. reflexivity.
Defined.

Lemma bulk_Fire_enqueues_witness :
  exists w',
    Fire sample_entry (bulk_hook good_client) (queued_world good_client) = Ret None w'
    /\ (exists bp, procs w' !! 0%nat = Some bp /\ length (bp_buffer bp) = 2%nat)
    /\ length (trace w') = 1%nat.
Proof.
  destruct (bulk_Fire_enqueues sample_entry (bulk_hook good_client)
              (queued_world good_client) (Some 0%nat) eq_refl) as [_ H].
  destruct (H 0%nat _ eq_refl eq_refl eq_refl) as (w' & HF & Hp & _ & Ht & _).
  exists w'. split; [exact HF|split].
  - eexists. split; [exact Hp|reflexivity].
  - rewrite Ht. reflexivity.
Defined.


Lemma EnableBulkFlush_not_atomic_witness :
  exists h' w',
    EnableBulkFlush (Some sample_options) (sample_hook down_client) sample_world
    = Ret (h', Some (mkError "cannot start")) w'
    /\ Hook_flushFunc h' = flush_bulk None
    /\ Hook_flushFunc h' <> Hook_flushFunc (sample_hook down_client).
Proof.
  destruct (EnableBulkFlush_not_atomic sample_options (sample_hook down_client)
              sample_world false (mkError "cannot start") eq_refl)
    as (h' & w' & processor & HE & Hf & _ & Hne & _).
  exists h', w'. split; [exact HE|split].
  - rewrite EnableBulkFlush_result in HE. cbn in HE. injection HE as <- _. reflexivity.
  - apply Hne. left. reflexivity.
Defined.


(** * More of the hook *)

(** ** Synchronous delivery *)

Lemma syncFlush_run (entry : Entry) (hook : Hook) (w : World) :
  syncFlush entry hook w
  = let req := mkIndexRequest (Hook_index hook) (Hook_docType hook)
                 (snd (Hook_formatter hook entry (heap w))) in
    let err := Index_Do (Hook_client hook) (ctx_done w) req in
    Ret err (emit (EvIndex req err)
               (set_heap (fst (Hook_formatter hook entry (heap w))) w)).
Proof.
  unfold syncFlush, bind, call_formatter, get, modify, ret.
  by destruct (Hook_formatter hook entry (heap w)).
Qed.

(** X1. In synchronous mode, firing a list of entries issues one index
    request per entry, in the order of the entries, each under the hook's
    index and document type, and hands each request's own result back to the
    caller; nothing is spawned and no processor is touched. *)
Theorem sync_fire_all_in_order (entries : list Entry) (h : Hook) (w : World)
    (Hsync : Hook_flushFunc h = flush_sync) :
  let reqs := fst (requests_of entries h (heap w)) in
  let result := Index_Do (Hook_client h) (ctx_done w) in
  exists w',
    fire_all entries h w = Ret (map result reqs) w'
    /\ trace w' = trace w ++ map (fun r => EvIndex r (result r)) reqs
    /\ heap w' = snd (requests_of entries h (heap w))
    /\ length reqs = length entries
    /\ goroutines w' = goroutines w /\ procs w' = procs w /\ ctx_done w' = ctx_done w.
Proof.
  cbv zeta. revert w. induction entries as [|e es IH]; intros w.
  - eexists. split; [reflexivity|]. cbn. by rewrite app_nil_r.
  - cbn [fire_all requests_of]. unfold bind at 1. unfold Fire at 1.
    rewrite Hsync. cbn [call_flushFunc]. rewrite syncFlush_run. cbv zeta.
    destruct (Hook_formatter h e (heap w)) as [hp1 doc] eqn:Hf. cbn [fst snd].
    set (w1 := emit _ (set_heap hp1 w)).
    destruct (IH w1) as (w' & HF & Ht & Hh & Hl & Hg & Hp & Hc).
    change (heap w1) with hp1 in *. change (ctx_done w1) with (ctx_done w) in *.
    destruct (requests_of es h hp1) as [rs hp2] eqn:Hr. cbn [fst snd] in *.
    unfold bind. rewrite HF. unfold ret. eexists. split; [reflexivity|].
    cbn [map length]. rewrite Ht. subst w1. cbn [trace emit set_heap] in *.
    rewrite <- app_assoc. cbn [app]. repeat split; try done. by rewrite Hl.
Qed.

(** X2. Closing the hook does not stop it from delivering: a synchronous
    [Fire] after [Close] still formats the entry and issues the index
    request, now under the cancelled context, and returns whatever the
    client answers to that. *)
Theorem Fire_after_Close_uses_cancelled_context (entry : Entry) (h : Hook) (w : World)
    (Hsync : Hook_flushFunc h = flush_sync)
    (Hcancel : Hook_cancel h = cancel_ctx) :
  exists w1 w2 req,
    Close h w = Ret tt w1
    /\ Fire entry h w1 = Ret (Index_Do (Hook_client h) true req) w2
    /\ req = mkIndexRequest (Hook_index h) (Hook_docType h)
               (snd (Hook_formatter h entry (heap w)))
    /\ trace w2 = trace w ++ [EvCancel; EvIndex req (Index_Do (Hook_client h) true req)].
Proof.
  eexists _, _, _. rewrite Close_plain by done. split; [reflexivity|].
  unfold Fire. rewrite Hsync. cbn [call_flushFunc]. rewrite syncFlush_run.
  split; [reflexivity|split; [reflexivity|]].
  cbn [trace emit set_heap set_ctx_done]. by rewrite <- app_assoc.
Qed.

(** X3. The formatter decides the document and nothing else: after
    [SetFormatter] and [SetDocumentType] a synchronous [Fire] sends the
    document of the new formatter, under the new document type and under the
    index the hook was built with. *)
Theorem Fire_after_SetFormatter_SetDocumentType
    (entry : Entry) (h : Hook) (w : World) (formatter : Formatter) (t : string)
    (Hsync : Hook_flushFunc h = flush_sync) :
  let h' := SetDocumentType t (SetFormatter formatter h) in
  let req := mkIndexRequest (Hook_index h) t (snd (formatter entry (heap w))) in
  exists w',
    Fire entry h' w = Ret (Index_Do (Hook_client h) (ctx_done w) req) w'
    /\ trace w' = trace w ++ [EvIndex req (Index_Do (Hook_client h) (ctx_done w) req)]
    /\ heap w' = fst (formatter entry (heap w)).
Proof.
  cbv zeta. unfold Fire. cbn [SetDocumentType SetFormatter Hook_flushFunc].
  rewrite Hsync. cbn [call_flushFunc]. rewrite syncFlush_run. cbn.
  eexists. split; [reflexivity|]. done.
Qed.

(** ** More on levels *)

(** X4. The level set after [SetLevel] is a prefix of [AllLevels], most
    severe first: the first [level + 1] levels, and all seven of them when
    [level] is the trace level or any greater number. *)
Theorem SetLevel_prefix (level : logrus.Level) (h : Hook) :
  Levels (SetLevel level h)
  = take (S (N.to_nat (N.min level logrus.TraceLevel))) logrus.AllLevels.
Proof.
  rewrite Levels_SetLevel. unfold logrus.TraceLevel.
  destruct (N.le_gt_cases level 6) as [Hle|Hgt].
  - assert (H : (level = 0 \/ level = 1 \/ level = 2 \/ level = 3 \/ level = 4
                 \/ level = 5 \/ level = 6)%N) by lia.
    destruct H as [->|[->|[->|[->|[->|[->| ->]]]]]]; reflexivity.
  - replace (N.min level 6) with 6%N by lia.
    unfold logrus.AllLevels, logrus.PanicLevel, logrus.FatalLevel, logrus.ErrorLevel,
      logrus.WarnLevel, logrus.InfoLevel, logrus.DebugLevel, logrus.TraceLevel.
    cbn [List.filter].
    repeat match goal with
           | |- context [(?a <=? level)%N] =>
               replace (a <=? level)%N with true by (symmetry; apply N.leb_le; lia)
           end.
    reflexivity.
Qed.

(** X5. Raising the threshold number only adds levels: what a hook set to
    [a] lets through, a hook set to a less severe [b] lets through as well. *)
Theorem SetLevel_monotone (a b : logrus.Level) (h h' : Hook) (l : logrus.Level)
    (Hab : (a <= b)%N)
    (Hl : In l (Levels (SetLevel a h))) :
  In l (Levels (SetLevel b h')).
Proof.
  apply In_Levels_SetLevel. apply In_Levels_SetLevel in Hl as [HA Hle].
  split; [done | lia].
Qed.

(** ** More on the default formatter *)

(** X6. Formatting is idempotent: run again on the heap it has left, the
    default formatter returns the same document and writes nothing. *)
Theorem defaultFormatter_idempotent (entry : Entry) (hp : Heap) :
  defaultFormatter entry (fst (defaultFormatter entry hp))
  = defaultFormatter entry hp.
Proof.
  pose proof (defaultFormatter_error_key entry hp) as Hk.
  set (hp' := fst (defaultFormatter entry hp)) in *.
  assert (Hdoc : forall a b, snd (defaultFormatter entry a) = snd (defaultFormatter entry b))
    by reflexivity.
  assert (Hfst : fst (defaultFormatter entry hp') = hp').
  { unfold defaultFormatter at 1. cbn [fst]. rewrite Hk.
    by destruct (map_get hp (Entry_Data entry) logrus.ErrorKey) as [[]|]. }
  rewrite (surjective_pairing (defaultFormatter entry hp')).
  rewrite (surjective_pairing (defaultFormatter entry hp)).
  rewrite Hfst. fold hp'. f_equal; apply Hdoc.
Qed.

(** X7. Delivering an entry rewrites the caller's record: after a
    synchronous [Fire] with the default formatter, the entry's own field map
    holds the message of the error it carried, and the document sent refers
    to that same map. *)
Theorem Fire_normalises_error_field (entry : Entry) (h : Hook) (w : World) (msg : string)
    (Hsync : Hook_flushFunc h = flush_sync)
    (Hfmt : Hook_formatter h = defaultFormatter)
    (Herr : map_get (heap w) (Entry_Data entry) logrus.ErrorKey = Some (VErr msg)) :
  exists r w' req,
    Fire entry h w = Ret r w'
    /\ trace w' = trace w ++ [EvIndex req r]
    /\ req_doc req !! "data" = Some (VMap (Entry_Data entry))
    /\ map_get (heap w') (Entry_Data entry) logrus.ErrorKey = Some (VStr msg)
    /\ heap w' <> heap w.
Proof.
  unfold Fire. rewrite Hsync. cbn [call_flushFunc]. rewrite syncFlush_run, Hfmt.
  cbv zeta. eexists _, _, _. split; [reflexivity|].
  cbn [trace emit set_heap heap req_doc].
  pose proof (defaultFormatter_error_key entry (heap w)) as Hk. rewrite Herr in Hk.
  split; [done|]. split; [|split; [exact Hk|]].
  - unfold defaultFormatter; cbn [snd]. by simplify_map_eq.
  - intros Heq.
    assert (Hbad : Some (VStr msg) = Some (VErr msg)) by (by rewrite <- Hk, <- Herr, Heq).
    discriminate Hbad.
Qed.

(** ** More on asynchronous delivery *)

(** X8. In asynchronous mode [Fire] returns nil with the entry neither
    formatted nor sent: the heap is as it was and the body is queued.  When
    the body runs, it formats the entry, issues the one index request, and,
    if an error logger is set, calls it once with the result of that
    request; with no logger the result is dropped.  The caller never sees
    it. *)
Theorem async_Fire_then_goroutine (entry : Entry) (h : Hook) (w : World)
    (Hasync : Hook_flushFunc h = flush_async) :
  let req := mkIndexRequest (Hook_index h) (Hook_docType h)
               (snd (Hook_formatter h entry (heap w))) in
  let err := Index_Do (Hook_client h) (ctx_done w) req in
  exists w1 w2,
    Fire entry h w = Ret None w1
    /\ heap w1 = heap w
    /\ trace w1 = trace w ++ [EvGo entry]
    /\ goroutines w1 = goroutines w ++ [entry]
    /\ run_goroutine (length (goroutines w)) h w1 = Ret tt w2
    /\ trace w2 = trace w ++ [EvGo entry; EvIndex req err]
                    ++ match Hook_errorLogger h with
                       | Some _ => [EvErrorLogger "couldn't send log to elastic" err]
                       | None => []
                       end
    /\ heap w2 = fst (Hook_formatter h entry (heap w))
    /\ goroutines w2 = goroutines w.
Proof.
  cbv zeta. unfold Fire. rewrite Hasync. cbn [call_flushFunc].
  rewrite asyncFlush_returns_nil.
  destruct (Hook_errorLogger h) as [l|] eqn:Hl; eexists _, _;
    (split; [reflexivity|]); (split; [reflexivity|]); (split; [reflexivity|]);
    (split; [reflexivity|]);
    unfold run_goroutine; cbn [goroutines emit set_goroutines];
    rewrite list_lookup_middle by done; rewrite delete_middle, app_nil_r;
    unfold asyncFlush_go, bind; rewrite syncFlush_run, Hl; cbv zeta;
    cbn [heap ctx_done emit set_goroutines set_heap];
    (split; [reflexivity|]); cbn; (split; [|done]); by rewrite <- !app_assoc.
Qed.

(** ** What the processor's methods leave alone *)

Lemma errorLogger_calls_app (a b : list Event) :
  errorLogger_calls (a ++ b) = errorLogger_calls a ++ errorLogger_calls b.
Proof. apply List.filter_app. Qed.

Lemma with_processor_frame {A} (processor : option nat) (stopped : Client -> option A)
    (k : nat -> BulkProcessor -> Go A) (ev : nat -> BulkProcessor -> Event)
    (upd : BulkProcessor -> BulkProcessor) (res : BulkProcessor -> A)
    (w w' : World) (r : A) :
  (forall p bp w0, k p bp w0
     = Ret (res bp) (emit (ev p bp) (set_procs (<[p := upd bp]> (procs w0)) w0))) ->
  with_processor processor stopped k w = Ret r w' ->
  exists evs, extends_by w w' evs
              /\ (evs = [] \/ exists p bp, evs = [ev p bp]).
Proof.
  intros Hk. unfold with_processor.
  destruct processor as [p|]; [|done].
  destruct (procs w !! p) as [bp|]; [|done].
  destruct (bp_started bp).
  - rewrite Hk. intros [= _ <-]. exists [ev p bp]. split; [|eauto].
    repeat split; try done. cbn. by rewrite length_insert.
  - destruct (stopped (bp_client bp)); [|done]. intros [= _ <-].
    exists []. split; [|eauto]. repeat split; try done. cbn. by rewrite app_nil_r.
Qed.

Lemma processor_Add_frame (processor : option nat) (req : IndexRequest)
    (w w' : World) (r : unit) :
  processor_Add processor req w = Ret r w' ->
  exists evs, extends_by w w' evs /\ (evs = [] \/ exists p, evs = [EvAdd p req]).
Proof.
  intros H.
  eapply (with_processor_frame _ _ _ (fun p _ => EvAdd p req)
            (fun bp => set_buffer (bp_buffer bp ++ [req]) bp) (fun _ => tt)) in H;
    [|reflexivity].
  destruct H as (evs & He & [->|(p & _ & ->)]); eauto.
Qed.

Lemma processor_Flush_frame (processor : option nat) (w w' : World) (r : option Error) :
  processor_Flush processor w = Ret r w' ->
  exists evs, extends_by w w' evs
              /\ (evs = [] \/ exists p batch, evs = [EvFlush p batch r]).
Proof.
  unfold processor_Flush, with_processor.
  destruct processor as [p|]; [|done].
  destruct (procs w !! p) as [bp|]; [|done].
  destruct (bp_started bp).
  - unfold bind, modify, ret. intros [= <- <-]. eexists. split; [|right; eauto].
    repeat split; try done. cbn. by rewrite length_insert.
  - destruct (after_stop None (bp_client bp)); [|done]. intros [= _ <-].
    exists []. split; [|eauto]. repeat split; try done. cbn. by rewrite app_nil_r.
Qed.

Lemma processor_Close_frame (processor : option nat) (w w' : World) (r : option Error) :
  processor_Close processor w = Ret r w' ->
  exists evs, extends_by w w' evs
              /\ (evs = [] \/ exists p, evs = [EvClose p r]).
Proof.
  unfold processor_Close, with_processor.
  destruct processor as [p|]; [|done].
  destruct (procs w !! p) as [bp|]; [|done].
  destruct (bp_started bp).
  - unfold bind, modify, ret. intros [= <- <-]. eexists. split; [|right; eauto].
    repeat split; try done. cbn. by rewrite length_insert.
  - intros [= _ <-].
    exists []. split; [|eauto]. repeat split; try done. cbn. by rewrite app_nil_r.
Qed.

Lemma extends_by_trans (w1 w2 w3 : World) (a b : list Event) :
  extends_by w1 w2 a -> extends_by w2 w3 b -> extends_by w1 w3 (a ++ b).
Proof.
  intros (Ht1 & Hh1 & Hc1 & Hg1 & Hp1) (Ht2 & Hh2 & Hc2 & Hg2 & Hp2).
  repeat split; try congruence. by rewrite Ht2, Ht1, app_assoc.
Qed.

(** ** Close, whatever was enabled before *)

(** X9. However many times bulk mode was enabled, a [Close] that returns
    has cancelled the hook's context, and has done so before anything else:
    the first thing it adds to the trace is the cancellation.  The heap and
    the pending goroutines are untouched. *)
Theorem Close_cancels_first (h : Hook) (w w' : World)
    (HClose : Close h w = Ret tt w') :
  ctx_done w' = true
  /\ (exists rest, trace w' = trace w ++ EvCancel :: rest)
  /\ heap w' = heap w
  /\ goroutines w' = goroutines w.
Proof.
  unfold Close in HClose. revert w w' HClose.
  induction (Hook_cancel h) as [|c IH processor]; intros w w' HClose.
  - injection HClose as <-. cbn. split; [done|]. split; [by exists []|done].
  - cbn [call_cancel] in HClose. unfold bind in HClose.
    destruct (call_cancel c h w) as [[] w1|] eqn:H1; [|done].
    destruct (IH _ _ H1) as (Hd & (rest & Ht) & Hh & Hg).
    destruct (processor_Flush processor w1) as [e w2|] eqn:H2; [|done].
    apply processor_Flush_frame in H2 as (ev2 & (Ht2 & Hh2 & Hc2 & Hg2 & _) & _).
    rewrite log_error_reported in HClose.
    destruct (processor_Close processor _) as [e' w3|] eqn:H3; [|done].
    apply processor_Close_frame in H3 as (ev3 & (Ht3 & Hh3 & Hc3 & Hg3 & _) & _).
    rewrite log_error_reported in HClose. injection HClose as <-.
    cbn in *. split; [congruence|]. split; [|split; congruence].
    eexists. rewrite Ht3, Ht2, Ht. rewrite <- !app_assoc. reflexivity.
Qed.

(** X10. A hook without an error logger never calls one: whatever [Fire],
    a spawned body or [Close] do, the calls to the error logger recorded in
    the trace are those that were there. *)
Theorem no_errorLogger_no_call (h : Hook) (w w' : World)
    (Hnone : Hook_errorLogger h = None) :
  (forall entry r, Fire entry h w = Ret r w' ->
                   errorLogger_calls (trace w') = errorLogger_calls (trace w))
  /\ (forall i, run_goroutine i h w = Ret tt w' ->
                errorLogger_calls (trace w') = errorLogger_calls (trace w))
  /\ (Close h w = Ret tt w' ->
      errorLogger_calls (trace w') = errorLogger_calls (trace w)).
Proof.
  split; [|split].
  - intros entry r. unfold Fire. destruct (Hook_flushFunc h) as [| |processor];
      cbn [call_flushFunc].
    + rewrite syncFlush_run. intros [= _ <-]. cbn.
      by rewrite errorLogger_calls_app, app_nil_r.
    + rewrite asyncFlush_returns_nil. intros [= _ <-]. cbn.
      by rewrite errorLogger_calls_app, app_nil_r.
    + unfold bulkFlush, bind, call_formatter.
      destruct (Hook_formatter h entry (heap w)) as [hp doc].
      destruct (processor_Add _ _ _) as [[] w1|] eqn:HA; [|done].
      intros [= _ <-].
      apply processor_Add_frame in HA as (evs & (Ht & _) & Hev). rewrite Ht. cbn.
      rewrite errorLogger_calls_app.
      destruct Hev as [->|(p & ->)]; by rewrite app_nil_r.
  - intros i. unfold run_goroutine.
    destruct (goroutines w !! i) as [entry|]; [|by intros [= <-]].
    unfold asyncFlush_go, bind. rewrite syncFlush_run, Hnone. intros [= <-]. cbn.
    by rewrite errorLogger_calls_app, app_nil_r.
  - unfold Close. revert w w'.
    induction (Hook_cancel h) as [|c IH processor]; intros w w' HClose.
    + injection HClose as <-. cbn. by rewrite errorLogger_calls_app, app_nil_r.
    + cbn [call_cancel] in HClose. unfold bind in HClose.
      destruct (call_cancel c h w) as [[] w1|] eqn:H1; [|done].
      specialize (IH _ _ H1).
      destruct (processor_Flush processor w1) as [e w2|] eqn:H2; [|done].
      apply processor_Flush_frame in H2 as (ev2 & (Ht2 & _) & Hev2).
      rewrite log_error_reported in HClose.
      destruct (processor_Close processor _) as [e' w3|] eqn:H3; [|done].
      apply processor_Close_frame in H3 as (ev3 & (Ht3 & _) & Hev3).
      rewrite log_error_reported in HClose. injection HClose as <-.
      cbn in *. unfold reported in *. rewrite Hnone in *.
      assert (Hn : forall e : option Error,
                 match e with Some _ => @nil Event | None => [] end = []) by by intros [].
      rewrite !Hn, !app_nil_r in *. rewrite Ht3, Ht2.
      rewrite !errorLogger_calls_app, IH.
      destruct Hev2 as [->|(p2 & b2 & ->)], Hev3 as [->|(p3 & ->)];
        cbn; by rewrite ?app_nil_r.
Qed.

(** ** More on bulk delivery *)





(** X13. When the service hands back no processor, the hook
    [EnableBulkFlush] leaves behind cannot be used: every [Fire] and every
    [Close] on it faults, on the nil processor. *)
Theorem EnableBulkFlush_without_processor (o : BulkOptions) (h : Hook) (w : World)
    (err : option Error)
    (Hdo : BulkProcessor_Do (Hook_client h) (bulk_service o) = (false, err)) :
  exists h',
    EnableBulkFlush (Some o) h w = Ret (h', err) w
    /\ (forall entry w0, Fire entry h' w0 = Panic)
    /\ (forall w0, Close h' w0 = Panic).
Proof.
  rewrite EnableBulkFlush_result, Hdo. cbn [fst snd].
  eexists. split; [reflexivity|]. split.
  - intros entry w0. unfold Fire. cbn [Hook_flushFunc set_flushFunc call_flushFunc].
    unfold bulkFlush, bind, call_formatter. cbn [Hook_formatter set_flushFunc set_cancel].
    by destruct (Hook_formatter h entry (heap w0)).
  - intros w0. unfold Close. cbn [Hook_cancel set_flushFunc set_cancel call_cancel].
    unfold bind. by destruct (call_cancel _ _ w0).
Qed.

(** X14. [BulkOptions.Stats] is never read: [EnableBulkFlush] does the same
    whatever its value.  A worker count that is not positive, and a zero
    action count, size or interval, are not passed on either. *)
Theorem EnableBulkFlush_ignores_Stats (o : BulkOptions) (stats : bool) (h : Hook) (w : World) :
  let o' := mkBulkOptions (Workers o) stats (BulkActions o) (BulkSize o) (FlushInterval o)
              (Backoff o) (BulkBefore o) (BulkAfter o) (RetryItemStatusCodes o) in
  EnableBulkFlush (Some o') h w = EnableBulkFlush (Some o) h w
  /\ (svc_workers (bulk_service o) = None <-> (Workers o <= 0)%Z)
  /\ (svc_bulkActions (bulk_service o) = None <-> BulkActions o = 0%Z)
  /\ (svc_bulkSize (bulk_service o) = None <-> BulkSize o = 0%Z)
  /\ (svc_flushInterval (bulk_service o) = None <-> FlushInterval o = 0%Z).
Proof.
  cbv zeta. split; [reflexivity|]. unfold bulk_service. cbn.
  repeat split; intros H;
    repeat match goal with
           | H : context [(?a <? ?b)%Z] |- _ => destruct (Z.ltb_spec a b)
           | |- context [(?a <? ?b)%Z] => destruct (Z.ltb_spec a b)
           | H : context [(?a =? ?b)%Z] |- _ => destruct (Z.eqb_spec a b)
           | |- context [(?a =? ?b)%Z] => destruct (Z.eqb_spec a b)
           end; try done; try lia.
Qed.

(** X15. Bulk mode enabled twice: the hook adds to the second processor
    only, and its [Close] still takes care of the first.  It cancels the
    context, flushes and closes the first processor, then flushes and closes
    the second, each flush carrying what that processor held, and leaves
    both empty and stopped. *)
Theorem Close_after_two_EnableBulkFlush (h : Hook) (w : World)
    (p1 p2 : nat) (bp1 bp2 : BulkProcessor)
    (Hcancel : Hook_cancel h
               = cancel_bulk (cancel_bulk cancel_ctx (Some p1)) (Some p2))
    (Hne : p1 <> p2)
    (Hp1 : procs w !! p1 = Some bp1) (Hs1 : bp_started bp1 = true)
    (Hp2 : procs w !! p2 = Some bp2) (Hs2 : bp_started bp2 = true) :
  let f1 := Flush_result (bp_client bp1) (bp_buffer bp1) in
  let f2 := Flush_result (bp_client bp2) (bp_buffer bp2) in
  exists w',
    Close h w = Ret tt w'
    /\ trace w' = trace w
         ++ [EvCancel; EvFlush p1 (bp_buffer bp1) f1] ++ reported h "couldn't flush" f1
         ++ [EvClose p1 (Close_result (bp_client bp1))]
         ++ reported h "couldn't close" (Close_result (bp_client bp1))
         ++ [EvFlush p2 (bp_buffer bp2) f2] ++ reported h "couldn't flush" f2
         ++ [EvClose p2 (Close_result (bp_client bp2))]
         ++ reported h "couldn't close" (Close_result (bp_client bp2))
    /\ procs w' !! p1 = Some (set_started false (set_buffer [] bp1))
    /\ procs w' !! p2 = Some (set_started false (set_buffer [] bp2)).
Proof.
  cbv zeta. unfold Close. rewrite Hcancel, call_cancel_bulk_step.
  rewrite (call_cancel_bulk_world h w p1 bp1 Hp1 Hs1).
  set (w1 := mkWorld _ _ _ _ _).
  assert (Hp2' : procs w1 !! p2 = Some bp2).
  { subst w1. cbn [procs]. by rewrite !list_lookup_insert_ne. }
  assert (Hlt2 : p2 < length (procs w1)) by by eapply lookup_lt_Some.
  rewrite (processor_Flush_started p2 bp2 w1 Hp2' Hs2).
  rewrite log_error_reported.
  erewrite processor_Close_started;
    [|cbn [procs emit set_procs]; by apply list_lookup_insert_eq|exact Hs2].
  rewrite log_error_reported.
  eexists. split; [reflexivity|]. cbn [trace procs emit set_procs].
  split; [|split].
  - subst w1. cbn [trace]. by rewrite <- !app_assoc.
  - rewrite !list_lookup_insert_ne by done. subst w1. cbn [procs].
    rewrite list_lookup_insert_eq; [done|]. rewrite length_insert.
    by eapply lookup_lt_Some.
  - rewrite list_lookup_insert_eq; [done|]. by rewrite length_insert.
Qed.

(** ** From construction to delivery *)

(** X16. A hook fresh from [New] delivers at once and synchronously: when
    the index exists, [New] returns a hook and no error, and the first
    [Fire] on it sends one request to that index, under the document type
    "doc" and a live context, with the four-field document of the default
    formatter, and returns the client's answer. *)
Theorem New_then_Fire (client : Client) (index : string) (entry : Entry) (w : World)
    (Hexists : IndexExists_Do client index = (true, None)) :
  exists h w1 w2 req,
    New client index w = Ret (Some h, None) w1
    /\ Levels h = logrus.AllLevels
    /\ Fire entry h w1 = Ret (Index_Do client false req) w2
    /\ trace w2 = trace w ++ [EvIndex req (Index_Do client false req)]
    /\ req_index req = index /\ req_type req = "doc"
    /\ dom (req_doc req) = ({[ "@timestamp"; "message"; "level"; "data" ]} : gset string)
    /\ req_doc req !! "message" = Some (VStr (Entry_Message entry)).
Proof.
  unfold New, bind, modify. rewrite Hexists. cbn [negb]. unfold ret.
  eexists _, _, _, _. split; [reflexivity|]. split; [reflexivity|].
  unfold Fire. cbn [Hook_flushFunc call_flushFunc]. rewrite syncFlush_run. cbv zeta.
  cbn [Hook_client Hook_index Hook_docType Hook_formatter ctx_done set_ctx_done heap].
  split; [reflexivity|]. cbn [trace emit set_heap set_ctx_done req_index req_type req_doc].
  split; [done|]. split; [done|]. split; [done|].
  unfold defaultFormatter; cbn [snd]. split.
  - rewrite !dom_insert_L, dom_empty_L. set_solver.
  - by simplify_map_eq.
Qed.

(** * These theorems at work on the samples *)

Lemma sync_fire_all_in_order_witness :
  exists w',
    fire_all [sample_entry; sample_entry] (sample_hook good_client) sample_world
    = Ret [None; None] w'
    /\ length (trace w') = 2%nat.
Proof.
  destruct (sync_fire_all_in_order [sample_entry; sample_entry]
              (sample_hook good_client) sample_world eq_refl) as (w' & HF & Ht & _).
  exists w'. split; [exact HF|]. rewrite Ht. reflexivity.
Defined.

Lemma Fire_after_Close_uses_cancelled_context_witness :
  exists w1 w2,
    Close (sample_hook down_client) sample_world = Ret tt w1
    /\ Fire sample_entry (sample_hook down_client) w1
       = Ret (Some (mkError "no route to host")) w2
    /\ length (trace w2) = 2%nat.
Proof.
  destruct (Fire_after_Close_uses_cancelled_context sample_entry
              (sample_hook down_client) sample_world eq_refl eq_refl)
    as (w1 & w2 & req & HC & HF & _ & Ht).
  exists w1, w2. split; [exact HC|]. split; [exact HF|]. rewrite Ht. reflexivity.
Defined.

Lemma Fire_after_SetFormatter_SetDocumentType_witness :
  exists w',
    Fire sample_entry
      (SetDocumentType "log" (SetFormatter component_formatter (sample_hook good_client)))
      sample_world
    = Ret None w'
    /\ trace w' = [EvIndex (mkIndexRequest "logs" "log" {[ "component" := VStr "test" ]}) None].
Proof.
  destruct (Fire_after_SetFormatter_SetDocumentType sample_entry (sample_hook good_client)
              sample_world component_formatter "log" eq_refl) as (w' & HF & Ht & _).
  exists w'. split; [exact HF|exact Ht].
Defined.

Lemma SetLevel_monotone_witness :
  (logrus.ErrorLevel <= logrus.InfoLevel)%N
  /\ In logrus.ErrorLevel (Levels (SetLevel logrus.InfoLevel (sample_hook good_client))).
Proof.
  assert (Hle : (logrus.ErrorLevel <= logrus.InfoLevel)%N) by (vm_compute; discriminate).
  split; [exact Hle|].
  apply (SetLevel_monotone logrus.ErrorLevel logrus.InfoLevel
           (sample_hook good_client) (sample_hook good_client) logrus.ErrorLevel Hle).
  simpl. auto.
Defined.

Lemma Fire_normalises_error_field_witness :
  exists r w',
    Fire sample_entry (sample_hook good_client) sample_world = Ret r w'
    /\ map_get (heap w') 1%positive logrus.ErrorKey = Some (VStr "this is error").
Proof.
  destruct (Fire_normalises_error_field sample_entry (sample_hook good_client)
              sample_world "this is error" eq_refl eq_refl eq_refl)
    as (r & w' & req & HF & _ & _ & Hk & _).
  exists r, w'. split; [exact HF|exact Hk].
Defined.

Lemma async_Fire_then_goroutine_witness :
  let h := set_errorLogger (Some 0%nat) (EnableAsyncFlush (sample_hook down_client)) in
  exists w1 w2,
    Fire sample_entry h sample_world = Ret None w1
    /\ run_goroutine 0 h w1 = Ret tt w2
    /\ errorLogger_calls (trace w2)
       = [EvErrorLogger "couldn't send log to elastic" (Some (mkError "no route to host"))].
Proof.
  cbv zeta.
  destruct (async_Fire_then_goroutine sample_entry
              (set_errorLogger (Some 0%nat) (EnableAsyncFlush (sample_hook down_client)))
              sample_world eq_refl)
    as (w1 & w2 & HF & _ & _ & _ & HG & Ht & _).
  exists w1, w2. split; [exact HF|]. split; [exact HG|]. rewrite Ht. reflexivity.
Defined.

Lemma Close_cancels_first_witness :
  exists w',
    Close (bulk_hook good_client) (queued_world good_client) = Ret tt w'
    /\ ctx_done w' = true.
Proof.
  pose proof (Close_bulk_world (bulk_hook good_client) (queued_world good_client)
                0%nat _ eq_refl eq_refl eq_refl) as HC.
  eexists. split; [exact HC|].
  exact (proj1 (Close_cancels_first _ _ _ HC)).
Defined.

Lemma no_errorLogger_no_call_witness :
  exists w',
    Close (bulk_hook flaky_bulk_client) (queued_world flaky_bulk_client) = Ret tt w'
    /\ errorLogger_calls (trace w') = [].
Proof.
  pose proof (Close_bulk_world (bulk_hook flaky_bulk_client) (queued_world flaky_bulk_client)
                0%nat _ eq_refl eq_refl eq_refl) as HC.
  eexists. split; [exact HC|].
  exact (proj2 (proj2 (no_errorLogger_no_call (bulk_hook flaky_bulk_client)
                         (queued_world flaky_bulk_client) _ eq_refl)) HC).
Defined.



Lemma EnableBulkFlush_without_processor_witness :
  exists h',
    EnableBulkFlush (Some sample_options) (sample_hook down_client) sample_world
    = Ret (h', Some (mkError "cannot start")) sample_world
    /\ Fire sample_entry h' sample_world = Panic
    /\ Close h' sample_world = Panic.
Proof.
  destruct (EnableBulkFlush_without_processor sample_options (sample_hook down_client)
              sample_world (Some (mkError "cannot start")) eq_refl)
    as (h' & HE & HF & HC).
  exists h'. split; [exact HE|]. split; [apply HF|apply HC].
Defined.

Lemma Close_after_two_EnableBulkFlush_witness :
  exists w',
    Close (twice_bulk_hook good_client) (twice_bulk_world good_client) = Ret tt w'
    /\ trace w' = [EvCancel; EvFlush 0 [sample_request] None; EvClose 0 None;
                   EvFlush 1 [] None; EvClose 1 None].
Proof.
  assert (Hne : 0%nat <> 1%nat) by discriminate.
  destruct (Close_after_two_EnableBulkFlush (twice_bulk_hook good_client)
              (twice_bulk_world good_client) 0%nat 1%nat _ _
              eq_refl Hne eq_refl eq_refl eq_refl eq_refl) as (w' & HC & Ht & _).
  exists w'. split; [exact HC|exact Ht].
Defined.

Lemma New_then_Fire_witness :
  exists h w1 w2,
    New good_client "logs" sample_world = Ret (Some h, None) w1
    /\ Fire sample_entry h w1 = Ret None w2
    /\ length (trace w2) = 1%nat.
Proof.
  destruct (New_then_Fire good_client "logs" sample_entry sample_world eq_refl)
    as (h & w1 & w2 & req & HN & _ & HF & Ht & _).
  exists h, w1, w2. split; [exact HN|]. split; [exact HF|]. rewrite Ht. reflexivity.
Defined.
